(** * Hybrid retrieval fusion (query.py): a shallow embedding and its properties

    The script wires a vector index and a keyword index together and fuses
    the two retrievers' results in [CustomRetriever].  The embedding follows
    query.py function by function:

    - Python exceptions are values of [exn]; a computation that may raise
      returns a [result];
    - calls into the external collaborators (directory reader, the two
      upstream retrievers) act on an abstract world [W], threaded through a
      small state-and-exception monad [M];
    - Python sets of node ids are [gset string], the dict keyed by node id
      is a [gmap string _];
    - the order in which Python iterates over a set is not fixed by the
      language: it is an interface, [HashOrder], of which two instances are
      given. *)

From Stdlib Require Import Ascii.
From stdpp Require Import base option list sets gmap strings fin_maps.

Set Warnings "-clear-no-such-hyp".

Open Scope string_scope.

(** ** Exceptions *)

(** A raised Python exception: its class name, the text [str(e)] gives, the
    [__cause__] (set by [raise ... from e]), the [__context__] (set when an
    exception is raised while another one is being handled), and whether its
    class derives from [Exception] (as opposed to [BaseException] only, like
    [KeyboardInterrupt]). *)
#[warnings="-register-all"]
Inductive exn : Type :=
  Exn (cls : string) (msg : string) (cause context : option exn)
      (derives_Exception : bool).

Definition exn_class (e : exn) : string :=
  match e with Exn c _ _ _ _ => c end.

Definition str (e : exn) : string :=
  match e with Exn _ m _ _ _ => m end.

Definition __cause__ (e : exn) : option exn :=
  match e with Exn _ _ c _ _ => c end.

Definition __context__ (e : exn) : option exn :=
  match e with Exn _ _ _ c _ => c end.

Definition is_Exception (e : exn) : bool :=
  match e with Exn _ _ _ _ b => b end.

(** [repr(s)] of a Python string, which is what [str] of a [KeyError]
    shows of its key.  The string is put between single quotes, or between
    double quotes when it holds a single quote and no double quote; the
    quote in use and the backslash are escaped, tab, newline and carriage
    return are written with their letters, and the other control
    characters as two hex digits.  Bytes from 128 on are the UTF-8 bytes
    of printable characters and are copied. *)
Definition single_quote : ascii := "'"%char.
Definition double_quote : ascii := "034"%char.
Definition backslash : ascii := "092"%char.

Fixpoint occurs (c : ascii) (s : string) : bool :=
  match s with
  | EmptyString => false
  | String c' s' => Ascii.eqb c c' || occurs c s'
  end.

Definition hex_digit (n : nat) : ascii :=
  nth n ["0"; "1"; "2"; "3"; "4"; "5"; "6"; "7"; "8"; "9";
         "a"; "b"; "c"; "d"; "e"; "f"]%char "0"%char.

Definition repr_char (quote c : ascii) : string :=
  let n := nat_of_ascii c in
  if Ascii.eqb c quote || Ascii.eqb c backslash then String backslash (String c EmptyString)
  else if Nat.eqb n 9 then String backslash "t"
  else if Nat.eqb n 10 then String backslash "n"
  else if Nat.eqb n 13 then String backslash "r"
  else if Nat.ltb n 32 || Nat.eqb n 127 then
    String backslash
      (String "x" (String (hex_digit (n / 16)) (String (hex_digit (n mod 16)) EmptyString)))
  else String c EmptyString.

Fixpoint repr_chars (quote : ascii) (s : string) : string :=
  match s with
  | EmptyString => EmptyString
  | String c s' => repr_char quote c +:+ repr_chars quote s'
  end.

Definition repr (s : string) : string :=
  let quote :=
    if occurs single_quote s && negb (occurs double_quote s) then double_quote
    else single_quote in
  String quote (repr_chars quote s +:+ String quote EmptyString).

(** [ValueError(msg)], [RuntimeError(msg)] and [KeyError(key)], raised
    outside any handler.  The text of a [KeyError] is the [repr] of its
    key. *)
Definition ValueError (msg : string) : exn := Exn "ValueError" msg None None true.
Definition RuntimeError (msg : string) : exn := Exn "RuntimeError" msg None None true.
Definition KeyError (key : string) : exn := Exn "KeyError" (repr key) None None true.

(** Raising [e'] inside an [except ... as e] block records [e] as the
    context of [e']. *)
Definition raised_while_handling (e e' : exn) : exn :=
  match e' with Exn c m ca _ b => Exn c m ca (Some e) b end.

(** [e'] wraps [e]: [e] hangs off [e'] as cause or as context. *)
Definition wraps (e' e : exn) : Prop :=
  __cause__ e' = Some e ∨ __context__ e' = Some e.

(** ** Results and the monad of external calls *)

Inductive result (A : Type) : Type :=
  | Return (a : A)
  | Raise (e : exn).
Arguments Return {A} a.
Arguments Raise {A} e.

Definition result_bind {A B} (r : result A) (k : A → result B) : result B :=
  match r with
  | Return a => k a
  | Raise e => Raise e
  end.

(** The list comprehension [[f(x) for x in l]] where [f] may raise: the
    first exception ends the loop. *)
Fixpoint comprehension {A B} (f : A → result B) (l : list A) : result (list B) :=
  match l with
  | [] => Return []
  | x :: l' =>
      result_bind (f x) (λ y,
      result_bind (comprehension f l') (λ ys, Return (y :: ys)))
  end.

Definition M (W A : Type) : Type := W → result A * W.

Definition ret {W A} (a : A) : M W A := λ w, (Return a, w).

Definition raise {W A} (e : exn) : M W A := λ w, (Raise e, w).

Definition bind {W A B} (m : M W A) (k : A → M W B) : M W B :=
  λ w, match m w with
       | (Return a, w') => k a w'
       | (Raise e, w') => (Raise e, w')
       end.

Definition lift {W A} (r : result A) : M W A := λ w, (r, w).

(** [try: body except Exception as e: handler(e)].  Only exceptions whose
    class derives from [Exception] are caught; what the handler raises gets
    the caught exception as context. *)
Definition try_except_Exception {W A} (body : M W A) (handler : exn → M W A) : M W A :=
  λ w, match body w with
       | (Return a, w') => (Return a, w')
       | (Raise e, w') =>
           if is_Exception e then
             match handler e w' with
             | (Return a, w'') => (Return a, w'')
             | (Raise e', w'') => (Raise (raised_while_handling e e'), w'')
             end
           else (Raise e, w')
       end.

Declare Scope py_scope.
Delimit Scope py_scope with py.
Notation "'do' x ← m ; k" := (bind m (λ x, k))
  (at level 10, x name, m at level 100, k at level 200) : py_scope.

(** Iteration over a Python set visits every element once, in an order
    the language leaves open; the order depends on more than the elements
    (on how the set was built, on the hash seed).  An instance stands for
    the order one iteration takes: a statement about one call of
    [_retrieve] holds for every instance, and a statement that compares
    two calls gives each call an instance of its own. *)
Class HashOrder : Type := {
  set_iter : gset string → list string;
  set_iter_perm : ∀ s, set_iter s ≡ₚ elements s
}.

(** ** Data model *)

Section Fusion.

(** [W]: the state of everything outside the script (disk, indices,
    network).  [Score]: the relevance score a retriever attaches; the
    script only carries it around.  [Document], [QueryBundle]: opaque
    library types. *)
Context {W Score Document QueryBundle : Type}.

(** [llama_index.core.schema]: a node has a [node_id]; a [NodeWithScore]
    pairs a node with an optional score. *)
Record BaseNode : Type := mkNode { node_id : string; text : string }.

Record NodeWithScore : Type := mkNodeWithScore { node : BaseNode; score : option Score }.

(** [n.node.node_id] *)
Definition nid (n : NodeWithScore) : string := node_id (node n).

(** Anything with a [retrieve(query_bundle)] method. *)
Definition Retriever : Type := QueryBundle → M W (list NodeWithScore).

(** *** Sets and dicts keyed by node id *)

(** [{n.node.node_id for n in nodes}] *)
Definition node_ids (nodes : list NodeWithScore) : gset string :=
  foldl (λ s n, {[nid n]} ∪ s) ∅ nodes.

(** [{n.node.node_id: n for n in nodes}]: entries are stored in list
    order, a later entry with the same key replaces the earlier one. *)
Definition node_dict (nodes : list NodeWithScore) : gmap string NodeWithScore :=
  foldl (λ d n, <[nid n := n]> d) ∅ nodes.

(** [d.update(other)]: every key of [other] is (re)bound in [d]. *)
Definition dict_update (d other : gmap string NodeWithScore) : gmap string NodeWithScore :=
  map_fold (λ k v acc, <[k := v]> acc) d other.

(** [d[k]], raising [KeyError] on a missing key. *)
Definition dict_getitem (d : gmap string NodeWithScore) (k : string) : result NodeWithScore :=
  match d !! k with
  | Some v => Return v
  | None => Raise (KeyError k)
  end.

(** ** load_documents *)

(** The library's directory reader: constructing it and calling
    [load_data()] both touch the disk and may raise. *)
Class DirectoryReader : Type := {
  Reader : Type;
  SimpleDirectoryReader : string → M W Reader;
  load_data : Reader → M W (list Document)
}.

Definition load_documents `{DirectoryReader} (file_path : string) : M W (list Document) :=
  try_except_Exception
    (do reader ← SimpleDirectoryReader file_path;
     load_data reader)%py
    (λ e, raise (RuntimeError ("Failed to load documents: " +:+ str e))).

(** ** CustomRetriever *)

Record CustomRetriever : Type := mkCustomRetriever {
  _vector_retriever : Retriever;
  _keyword_retriever : Retriever;
  _mode : string
}.

(** [__init__(self, vector_retriever, keyword_retriever, mode="OR")];
    [mode = None] stands for a call that leaves the argument out.  The
    object under construction is reachable only through the value the
    constructor returns, so a raise leaves the caller with no retriever.
    [super().__init__()] sets fields of the library's base class that the
    script never reads. *)
Definition __init__ (vector_retriever keyword_retriever : Retriever)
    (mode : option string) : result CustomRetriever :=
  let mode := default "OR" mode in
  if bool_decide (mode ∉ ["AND"; "OR"]) then Raise (ValueError "Invalid mode.")
  else Return (mkCustomRetriever vector_retriever keyword_retriever mode).

(** [_retrieve], local by local.  [combined_dict]: the dict of the vector
    items, updated with the dict of the keyword items. *)
Definition combined_dict (vector_nodes keyword_nodes : list NodeWithScore)
    : gmap string NodeWithScore :=
  dict_update (node_dict vector_nodes) (node_dict keyword_nodes).

(** [retrieve_ids]: the intersection of the two id sets when the mode is
    "AND", their union for any other mode. *)
Definition retrieve_ids (mode : string) (vector_nodes keyword_nodes : list NodeWithScore)
    : gset string :=
  let vector_ids := node_ids vector_nodes in
  let keyword_ids := node_ids keyword_nodes in
  if bool_decide (mode = "AND") then vector_ids ∩ keyword_ids
  else vector_ids ∪ keyword_ids.

(** [retrieve_nodes = [combined_dict[rid] for rid in retrieve_ids]] *)
Definition retrieve_nodes `{HashOrder} (mode : string)
    (vector_nodes keyword_nodes : list NodeWithScore) : result (list NodeWithScore) :=
  comprehension (dict_getitem (combined_dict vector_nodes keyword_nodes))
                (set_iter (retrieve_ids mode vector_nodes keyword_nodes)).

(** The two upstream calls, vector first, then the merge.  Neither call
    sits in a [try]. *)
Definition _retrieve `{HashOrder} (self : CustomRetriever) (query_bundle : QueryBundle)
    : M W (list NodeWithScore) :=
  (do vector_nodes ← _vector_retriever self query_bundle;
   do keyword_nodes ← _keyword_retriever self query_bundle;
   lift (retrieve_nodes (_mode self) vector_nodes keyword_nodes))%py.

(** ** create_query_engines *)

(** A [RetrieverQueryEngine] accepts any [BaseRetriever]: one of the
    library's own or the fusion retriever.  Building an engine is taken to
    store its two arguments and return; what is said about
    [create_query_engines] is said under that reading. *)
Inductive BaseRetriever : Type :=
  | LibraryRetriever (r : Retriever)
  | Fusion (c : CustomRetriever).

Record RetrieverQueryEngine {RS : Type} : Type := mkEngine {
  retriever : BaseRetriever;
  response_synthesizer : RS
}.
Arguments mkEngine {RS} retriever response_synthesizer.

(** The library constructors the wiring calls; each may touch the world
    and may raise. *)
Class Library : Type := {
  VectorIndex : Type;
  KeywordIndex : Type;
  ResponseSynthesizer : Type;
  VectorIndexRetriever : VectorIndex → nat → M W Retriever;
  KeywordTableSimpleRetriever : KeywordIndex → M W Retriever;
  get_response_synthesizer : M W ResponseSynthesizer
}.

Definition create_query_engines `{Library}
    (vector_index : VectorIndex) (keyword_index : KeywordIndex)
    : M W (@RetrieverQueryEngine ResponseSynthesizer
           * @RetrieverQueryEngine ResponseSynthesizer
           * @RetrieverQueryEngine ResponseSynthesizer) :=
  (do vector_retriever ← VectorIndexRetriever vector_index 2;
   do keyword_retriever ← KeywordTableSimpleRetriever keyword_index;
   do custom_retriever ← lift (__init__ vector_retriever keyword_retriever None);
   do response_synthesizer ← get_response_synthesizer;
   let custom_query_engine := mkEngine (Fusion custom_retriever) response_synthesizer in
   let vector_query_engine := mkEngine (LibraryRetriever vector_retriever) response_synthesizer in
   let keyword_query_engine := mkEngine (LibraryRetriever keyword_retriever) response_synthesizer in
   ret (vector_query_engine, keyword_query_engine, custom_query_engine))%py.

(** ** Notions the properties are stated with *)

(** [ids(·)]: the set of node ids of a sequence of items. *)
Definition ids (nodes : list NodeWithScore) : gset string := list_to_set (nid <$> nodes).

(** How often an id occurs in a sequence of items. *)
Definition occurrences (i : string) (nodes : list NodeWithScore) : nat :=
  length (filter (λ n, nid n = i) nodes).

(** The last item of a sequence that carries a given id. *)
Definition last_with_id (i : string) (nodes : list NodeWithScore) : option NodeWithScore :=
  last (filter (λ n, nid n = i) nodes).

(** The items the dict holds for the ids of the computed id set, in
    iteration order. *)
Definition looked_up `{HashOrder} (mode : string) (V K : list NodeWithScore)
    : list NodeWithScore :=
  omap (λ rid, combined_dict V K !! rid) (set_iter (retrieve_ids mode V K)).

(** The directory read that [load_documents] guards: the body of its
    [try]. *)
Definition directory_read `{DirectoryReader} (file_path : string) : M W (list Document) :=
  (do reader ← SimpleDirectoryReader file_path;
   load_data reader)%py.

(** [e'] is a [RetrievalError] that wraps [e]. *)
Definition RetrievalError_wrapping (e' e : exn) : Prop :=
  exn_class e' = "RetrievalError" ∧ wraps e' e.

End Fusion.

Arguments mkEngine {W Score QueryBundle RS} retriever response_synthesizer.

(** ** The rest of the script *)

Section Script.

Context {W Score Document QueryBundle : Type}.
Context `{DR : @DirectoryReader W Document} `{L : @Library W Score QueryBundle}.

(** The remaining library calls of the script: the node parser behind
    [Settings.node_parser], the storage context and its docstore, the two
    index constructors, [query] on an engine and [print].  Each acts on the
    world and may raise. *)
Class Services : Type := {
  Node : Type;
  StorageContext : Type;
  Response : Type;
  get_nodes_from_documents : list Document → M W (list Node);
  from_defaults : M W StorageContext;
  add_documents : StorageContext → list Node → M W ();
  VectorStoreIndex : list Node → StorageContext → M W VectorIndex;
  SimpleKeywordTableIndex : list Node → StorageContext → M W KeywordIndex;
  query : @RetrieverQueryEngine W Score QueryBundle ResponseSynthesizer → string → M W Response;
  print : Response → M W ()
}.

Context `{S : Services}.

Definition initialize_storage_context (nodes : list Node) : M W StorageContext :=
  (do storage_context ← from_defaults;
   do added ← add_documents storage_context nodes;
   ret storage_context)%py.

Definition create_indices (nodes : list Node) (storage_context : StorageContext)
    : M W (VectorIndex * KeywordIndex) :=
  (do vector_index ← VectorStoreIndex nodes storage_context;
   do keyword_index ← SimpleKeywordTableIndex nodes storage_context;
   ret (vector_index, keyword_index))%py.

(** The question [main] asks. *)
Definition example_question : string := "What is john smith's first job?".

Definition main : M W () :=
  (do documents ← load_documents "resume";
   do nodes ← get_nodes_from_documents documents;
   do storage_context ← initialize_storage_context nodes;
   do indices ← create_indices nodes storage_context;
   do engines ← create_query_engines (fst indices) (snd indices);
   let custom_query_engine := snd engines in
   do response ← query custom_query_engine example_question;
   print response)%py.

End Script.

(** ** Two iteration orders *)

(** Ascending order of the hash codes that [gset] uses. *)
Definition canonical_order : HashOrder :=
  {| set_iter := elements; set_iter_perm := λ s, reflexivity (elements s) |}.

(** The same, backwards. *)
Definition reversed_order : HashOrder :=
  {| set_iter := λ s, reverse (elements s);
     set_iter_perm := λ s, reverse_Permutation (elements s) |}.

(** ** A concrete setting *)

Module Demo.

(** The world is the log of the external calls made so far. *)
Definition World : Type := list string.

Definition logged (call : string) (w : World) : World := (w ++ [call])%list.

(** The log after both upstream retrievers were called on a fresh world. *)
Definition W2 : World := ["vector"; "keyword"].

(** Scores in hundredths. *)
Definition Item : Type := @NodeWithScore nat.

Definition item (id : string) (s : nat) : Item :=
  mkNodeWithScore (mkNode id "") (Some s).

(** An upstream retriever that logs its call and answers [r] to every
    query. *)
Definition answering (name : string) (r : result (list Item))
    : @Retriever World nat string :=
  λ _ w, (r, logged name w).

(** The scenario of the spec's section 8. *)
Definition V0 : list Item := [item "a" 90; item "b" 50].
Definition K0 : list Item := [item "b" 70; item "c" 30].

(** Ids repeated inside one sequence. *)
Definition V1 : list Item := [item "a" 90; item "b" 50; item "a" 10].
Definition K1 : list Item := [item "b" 70; item "c" 30; item "b" 20].

Definition fusion (mode : string) (V K : list Item)
    : @CustomRetriever World nat string :=
  mkCustomRetriever (answering "vector" (Return V)) (answering "keyword" (Return K)) mode.

Definition ConnectionError : exn := Exn "ConnectionError" "index unreachable" None None true.

Definition KeyboardInterrupt : exn := Exn "KeyboardInterrupt" "" None None false.

(** A fusion retriever whose vector retriever is down. *)
Definition vector_down : @CustomRetriever World nat string :=
  mkCustomRetriever (answering "vector" (Raise ConnectionError))
                    (answering "keyword" (Return K0)) "OR".

(** A fusion retriever whose keyword retriever is down. *)
Definition keyword_down : @CustomRetriever World nat string :=
  mkCustomRetriever (answering "vector" (Return V0))
                    (answering "keyword" (Raise ConnectionError)) "OR".

(** A directory reader that logs its calls; [load_data] answers [r]. *)
Definition reader_answering (r : result (list string))
    : @DirectoryReader World string :=
  {| Reader := string;
     SimpleDirectoryReader := λ path w, (Return path, logged "SimpleDirectoryReader" w);
     load_data := λ _ w, (r, logged "load_data" w) |}.

(** A directory reader whose constructor refuses the path. *)
Definition reader_rejecting (e : exn) : @DirectoryReader World string :=
  {| Reader := string;
     SimpleDirectoryReader := λ _ w, (Raise e, logged "SimpleDirectoryReader" w);
     load_data := λ _ w, (Return [], logged "load_data" w) |}.

(** Library constructors that log their calls and build retrievers which
    answer [V0] and [K0]. *)
Definition library : @Library World nat string :=
  {| VectorIndex := unit;
     KeywordIndex := unit;
     ResponseSynthesizer := unit;
     VectorIndexRetriever := λ _ _ w,
       (Return (answering "vector" (Return V0)), logged "VectorIndexRetriever" w);
     KeywordTableSimpleRetriever := λ _ w,
       (Return (answering "keyword" (Return K0)), logged "KeywordTableSimpleRetriever" w);
     get_response_synthesizer := λ w, (Return (), logged "get_response_synthesizer" w) |}.

(** The remaining services: each logs its call and returns; the node
    parser makes one node per document, the answer to a query is the
    question itself. *)
Definition services : @Services World nat string string library :=
  {| Node := string;
     StorageContext := unit;
     Response := string;
     get_nodes_from_documents := λ docs w, (Return docs, logged "get_nodes_from_documents" w);
     from_defaults := λ w, (Return (), logged "from_defaults" w);
     add_documents := λ _ _ w, (Return (), logged "add_documents" w);
     VectorStoreIndex := λ _ _ w,
       (Return (tt : @VectorIndex _ _ _ library), logged "VectorStoreIndex" w);
     SimpleKeywordTableIndex := λ _ _ w,
       (Return (tt : @KeywordIndex _ _ _ library), logged "SimpleKeywordTableIndex" w);
     query := λ _ question w, (Return question, logged "query" w);
     print := λ _ w, (Return (), logged "print" w) |}.

(** The vector items of the scenario with other scores, the other way
    round. *)
Definition V0' : list Item := [item "b" 99; item "a" 1].

End Demo.

(** * Properties *)

(** ** The monad *)

Lemma comprehension_omap {A B} (f : A → result B) (g : A → option B) (l : list A) :
  (∀ x, x ∈ l → ∃ y, g x = Some y ∧ f x = Return y) →
  comprehension f l = Return (omap g l) ∧ Forall2 (λ x y, g x = Some y) l (omap g l).
Proof.
  induction l as [|x l IH]; intros Hall.
  - split; [done | constructor].
  - destruct (Hall x) as (y & Hg & Hf); [by left |].
    destruct IH as [Hys Hrel].
    { intros x' Hx'. apply Hall. by right. }
    simpl. rewrite Hf, Hg. simpl. rewrite Hys. split; [done | by constructor].
Qed.

Lemma NoDup_occurrences {A} `{EqDecision A} (l : list A) (a : A) :
  NoDup l → length (filter (λ x, x = a) l) = if decide (a ∈ l) then 1 else 0.
Proof.
  induction 1 as [|x l Hx Hnd IH].
  - rewrite decide_False; [done | apply not_elem_of_nil].
  - destruct (decide (x = a)) as [-> | Hne].
    + rewrite filter_cons_True by done. simpl. rewrite IH.
      rewrite (decide_False (P := a ∈ l)) by done.
      rewrite decide_True; [done | by left].
    + rewrite filter_cons_False by done. rewrite IH.
      destruct (decide (a ∈ l)) as [Hin | Hnin].
      * rewrite decide_True; [done | by right].
      * rewrite decide_False; [done |].
        intros [Heq | Hin]%elem_of_cons; [by subst | done].
Qed.

Lemma set_iter_elem_of `{HashOrder} (s : gset string) (i : string) :
  i ∈ set_iter s ↔ i ∈ s.
Proof. rewrite set_iter_perm. apply elem_of_elements. Qed.

Lemma set_iter_NoDup `{HashOrder} (s : gset string) : NoDup (set_iter s).
Proof. rewrite set_iter_perm. apply NoDup_elements. Qed.

Lemma set_iter_empty `{HashOrder} : set_iter ∅ = [].
Proof.
  apply Permutation_nil_r. rewrite set_iter_perm. by rewrite elements_empty.
Qed.

Section FusionFacts.

Context {W Score Document QueryBundle : Type}.

Implicit Types (n : @NodeWithScore Score) (V K nodes out : list (@NodeWithScore Score)).
Implicit Types (i rid mode : string).

(** *** Sets and dicts built from a sequence *)

Lemma node_ids_snoc nodes n : node_ids (nodes ++ [n]) = {[nid n]} ∪ node_ids nodes.
Proof. unfold node_ids. by rewrite foldl_snoc. Qed.

Lemma elem_of_node_ids nodes i : i ∈ node_ids nodes ↔ ∃ n, n ∈ nodes ∧ nid n = i.
Proof.
  induction nodes as [|n nodes IH] using rev_ind.
  - split; [by intros ?%not_elem_of_empty | intros (n & Hn & _); by apply elem_of_nil in Hn].
  - rewrite node_ids_snoc, elem_of_union, elem_of_singleton, IH. split.
    + intros [-> | (n' & Hn' & Hid)].
      * exists n. split; [apply elem_of_app; right; by left | done].
      * exists n'. split; [apply elem_of_app; by left | done].
    + intros (n' & [Hn' | Hn']%elem_of_app & Hid).
      * right. by exists n'.
      * left. apply list_elem_of_singleton in Hn'. by subst.
Qed.

Lemma node_ids_ids nodes : node_ids nodes = ids nodes.
Proof.
  apply set_eq. intros i. rewrite elem_of_node_ids. unfold ids.
  rewrite elem_of_list_to_set, list_elem_of_fmap. naive_solver.
Qed.

Lemma elem_of_ids nodes i : i ∈ ids nodes ↔ ∃ n, n ∈ nodes ∧ nid n = i.
Proof. rewrite <- node_ids_ids. apply elem_of_node_ids. Qed.

Lemma last_with_id_snoc nodes n i :
  last_with_id i (nodes ++ [n]) =
    if decide (nid n = i) then Some n else last_with_id i nodes.
Proof.
  unfold last_with_id. rewrite filter_app.
  destruct (decide (nid n = i)) as [Heq | Hne].
  - rewrite filter_cons_True, filter_nil by done. by rewrite last_snoc.
  - rewrite filter_cons_False, filter_nil by done. by rewrite app_nil_r.
Qed.

Lemma last_with_id_Some nodes i n :
  last_with_id i nodes = Some n → n ∈ nodes ∧ nid n = i.
Proof.
  unfold last_with_id. intros Hlast.
  assert (n ∈ filter (λ n, nid n = i) nodes) as Hin.
  { apply last_Some in Hlast as [l' ->]. apply elem_of_app. right. by left. }
  apply list_elem_of_filter in Hin. naive_solver.
Qed.

Lemma last_with_id_is_Some nodes i :
  is_Some (last_with_id i nodes) ↔ i ∈ ids nodes.
Proof.
  rewrite elem_of_ids. split.
  - intros [n Hn]. exists n. by apply last_with_id_Some.
  - intros (n & Hin & Hid). unfold last_with_id.
    destruct (last _) as [n'|] eqn:Hlast; [by eexists |].
    apply last_None in Hlast.
    assert (n ∈ filter (λ n, nid n = i) nodes) as Hf by by apply list_elem_of_filter.
    rewrite Hlast in Hf. by apply elem_of_nil in Hf.
Qed.

Lemma node_dict_snoc nodes n : node_dict (nodes ++ [n]) = <[nid n := n]> (node_dict nodes).
Proof. unfold node_dict. by rewrite foldl_snoc. Qed.

(** Last writer wins inside one sequence. *)
Lemma lookup_node_dict nodes i : node_dict nodes !! i = last_with_id i nodes.
Proof.
  induction nodes as [|n nodes IH] using rev_ind; [done |].
  rewrite node_dict_snoc, last_with_id_snoc, lookup_insert.
  destruct (decide (nid n = i)); [done | apply IH].
Qed.

Lemma dict_update_union (d o : gmap string (@NodeWithScore Score)) :
  dict_update d o = o ∪ d.
Proof.
  unfold dict_update.
  induction o as [|k v o Hk Hfold IH] using map_first_key_ind.
  - rewrite map_fold_empty. by rewrite (left_id_L ∅ (∪)).
  - rewrite map_fold_insert_first_key by done.
    rewrite IH. by rewrite insert_union_l.
Qed.

(** Last writer wins across the two sequences: the keyword item if there
    is one, the vector item otherwise. *)
Lemma lookup_combined_dict V K i :
  combined_dict V K !! i =
    match last_with_id i K with
    | Some n => Some n
    | None => last_with_id i V
    end.
Proof.
  unfold combined_dict. rewrite dict_update_union, lookup_union.
  rewrite !lookup_node_dict.
  destruct (last_with_id i K), (last_with_id i V); done.
Qed.

Lemma lookup_combined_dict_Some V K i n :
  combined_dict V K !! i = Some n → nid n = i ∧ (n ∈ V ∨ n ∈ K).
Proof.
  rewrite lookup_combined_dict.
  destruct (last_with_id i K) as [k|] eqn:HK.
  - intros [= ->]. apply last_with_id_Some in HK. naive_solver.
  - intros HV. apply last_with_id_Some in HV. naive_solver.
Qed.

Lemma dom_combined_dict V K : dom (combined_dict V K) = ids V ∪ ids K.
Proof.
  apply set_eq. intros i.
  rewrite elem_of_dom, lookup_combined_dict, elem_of_union.
  rewrite <- !last_with_id_is_Some.
  destruct (last_with_id i K); [split; eauto | split; [by left | by intros [?|[? [=]]]]].
Qed.

Lemma retrieve_ids_AND V K : retrieve_ids "AND" V K = ids V ∩ ids K.
Proof. unfold retrieve_ids. by rewrite !node_ids_ids. Qed.

Lemma retrieve_ids_not_AND mode V K :
  mode ≠ "AND" → retrieve_ids mode V K = ids V ∪ ids K.
Proof.
  intros Hne. unfold retrieve_ids.
  rewrite bool_decide_eq_false_2 by done. by rewrite !node_ids_ids.
Qed.

Lemma retrieve_ids_subseteq mode V K : retrieve_ids mode V K ⊆ ids V ∪ ids K.
Proof.
  unfold retrieve_ids. rewrite !node_ids_ids. case_bool_decide; set_solver.
Qed.

(** *** The final lookup *)

Context `{Order : HashOrder}.

Lemma retrieve_ids_in_dict mode V K rid :
  rid ∈ retrieve_ids mode V K → is_Some (combined_dict V K !! rid).
Proof.
  intros Hin. apply elem_of_dom. rewrite dom_combined_dict.
  by apply retrieve_ids_subseteq in Hin.
Qed.

Lemma retrieve_nodes_Return mode V K :
  retrieve_nodes mode V K = Return (looked_up mode V K) ∧
  Forall2 (λ rid n, combined_dict V K !! rid = Some n)
          (set_iter (retrieve_ids mode V K)) (looked_up mode V K).
Proof.
  unfold retrieve_nodes, looked_up. apply comprehension_omap.
  intros rid Hin%set_iter_elem_of.
  destruct (retrieve_ids_in_dict _ _ _ _ Hin) as [n Hn].
  exists n. split; [done |]. unfold dict_getitem. by rewrite Hn.
Qed.

Lemma nid_looked_up mode V K :
  nid <$> looked_up mode V K = set_iter (retrieve_ids mode V K).
Proof.
  destruct (retrieve_nodes_Return mode V K) as [_ Hrel].
  induction Hrel as [|rid n l out Hn _ IH]; [done |].
  apply lookup_combined_dict_Some in Hn as [Hid _].
  rewrite fmap_cons. by f_equal.
Qed.

Lemma ids_looked_up mode V K : ids (looked_up mode V K) = retrieve_ids mode V K.
Proof.
  unfold ids. rewrite nid_looked_up. apply set_eq. intros i.
  by rewrite elem_of_list_to_set, set_iter_elem_of.
Qed.

Lemma elem_of_looked_up mode V K n :
  n ∈ looked_up mode V K ↔
  nid n ∈ retrieve_ids mode V K ∧ combined_dict V K !! nid n = Some n.
Proof.
  unfold looked_up. rewrite list_elem_of_omap. split.
  - intros (rid & Hin%set_iter_elem_of & Hn).
    pose proof (lookup_combined_dict_Some _ _ _ _ Hn) as [<- _]. done.
  - intros [Hin Hn]. exists (nid n). by rewrite set_iter_elem_of.
Qed.

Lemma occurrences_nid i out :
  occurrences i out = length (filter (λ x, x = i) (nid <$> out)).
Proof.
  unfold occurrences. induction out as [|n out IH]; [done |].
  rewrite fmap_cons. destruct (decide (nid n = i)) as [Heq | Hne].
  - rewrite !filter_cons_True by done. simpl. by rewrite IH.
  - by rewrite !filter_cons_False.
Qed.

Lemma occurrences_looked_up mode V K i :
  occurrences i (looked_up mode V K) =
    if decide (i ∈ retrieve_ids mode V K) then 1 else 0.
Proof.
  rewrite occurrences_nid, nid_looked_up.
  rewrite NoDup_occurrences by apply set_iter_NoDup.
  destruct (decide (i ∈ retrieve_ids mode V K)) as [Hin | Hnin].
  - rewrite decide_True; [done | by apply set_iter_elem_of].
  - rewrite decide_False; [done | by rewrite set_iter_elem_of].
Qed.

(** *** Running [_retrieve] *)

Implicit Types (self : @CustomRetriever W Score QueryBundle) (q : QueryBundle) (w : W).

(** Once both upstream calls have returned, the result is a function of
    the mode and the two sequences; the world is the one the upstream
    calls left. *)
Lemma _retrieve_run self q w V w1 K w2 :
  _vector_retriever self q w = (Return V, w1) →
  _keyword_retriever self q w1 = (Return K, w2) →
  _retrieve self q w = (Return (looked_up (_mode self) V K), w2).
Proof.
  intros HV HK. unfold _retrieve, bind, lift. rewrite HV, HK.
  by destruct (retrieve_nodes_Return (_mode self) V K) as [-> _].
Qed.

Lemma _retrieve_vector_raises self q w e w1 :
  _vector_retriever self q w = (Raise e, w1) →
  _retrieve self q w = (Raise e, w1).
Proof. intros HV. unfold _retrieve, bind. by rewrite HV. Qed.

Lemma _retrieve_keyword_raises self q w V w1 e w2 :
  _vector_retriever self q w = (Return V, w1) →
  _keyword_retriever self q w1 = (Raise e, w2) →
  _retrieve self q w = (Raise e, w2).
Proof. intros HV HK. unfold _retrieve, bind. by rewrite HV, HK. Qed.

End FusionFacts.

(** ** The fusion retriever *)

Section Retrieve.

Context {W Score QueryBundle : Type}.

Implicit Types (n k : @NodeWithScore Score) (V K out : list (@NodeWithScore Score)).
Implicit Types (self : @CustomRetriever W Score QueryBundle) (q : QueryBundle) (w : W).
Implicit Types (i rid mode : string).

(** C1. When both upstream calls return, [_retrieve] returns a
    collection whose id set is exactly [ids V ∩ ids K] in mode AND and
    exactly [ids V ∪ ids K] in mode OR. *)
Theorem retrieve_id_set `{HashOrder} self q w V w1 K w2 :
  _vector_retriever self q w = (Return V, w1) →
  _keyword_retriever self q w1 = (Return K, w2) →
  ∃ out, _retrieve self q w = (Return out, w2) ∧
         (_mode self = "AND" → ids out = ids V ∩ ids K) ∧
         (_mode self = "OR" → ids out = ids V ∪ ids K).
Proof.
  intros HV HK. exists (looked_up (_mode self) V K).
  split; [by apply (_retrieve_run self q w V w1 K w2) |].
  rewrite ids_looked_up. split; intros ->.
  - apply retrieve_ids_AND.
  - by apply retrieve_ids_not_AND.
Qed.

(** C2. For an id present in both upstream sequences the returned
    collection holds exactly one item, and it is the keyword
    retriever's: the last item of K with that id, whatever the mode.  If
    K gives that id one score, the returned item has that score. *)
Theorem keyword_item_wins `{HashOrder} self q w V w1 K w2 i :
  _vector_retriever self q w = (Return V, w1) →
  _keyword_retriever self q w1 = (Return K, w2) →
  i ∈ ids V → i ∈ ids K →
  ∃ out k, _retrieve self q w = (Return out, w2) ∧
           last_with_id i K = Some k ∧ k ∈ K ∧ k ∈ out ∧
           (∀ n, n ∈ out → nid n = i → n = k) ∧
           (∀ s, (∀ k', k' ∈ K → nid k' = i → score k' = s) →
                 ∀ n, n ∈ out → nid n = i → score n = s).
Proof.
  intros HV HK HiV HiK.
  destruct (proj2 (last_with_id_is_Some K i) HiK) as [k Hk].
  pose proof (last_with_id_Some _ _ _ Hk) as [HkK Hkid].
  assert (Hdict : combined_dict V K !! i = Some k).
  { by rewrite lookup_combined_dict, Hk. }
  assert (Hi : i ∈ retrieve_ids (_mode self) V K).
  { unfold retrieve_ids. rewrite !node_ids_ids. case_bool_decide; set_solver. }
  assert (Hsame : ∀ n, n ∈ looked_up (_mode self) V K → nid n = i → n = k).
  { intros n [_ Hn]%elem_of_looked_up Hid. rewrite Hid, Hdict in Hn. congruence. }
  exists (looked_up (_mode self) V K), k.
  split; [by apply (_retrieve_run self q w V w1 K w2) |].
  split; [done |]. split; [done |].
  split; [apply elem_of_looked_up; by rewrite Hkid |].
  split; [done |].
  intros s Hs n Hn Hid. rewrite (Hsame n Hn Hid). by apply Hs.
Qed.

(** C4, as the code has it.  A failing upstream call ends [_retrieve]
    with the upstream exception itself; nothing is returned.  When the
    vector retriever fails the keyword retriever is not called: the world
    is the one the vector call left. *)
Theorem upstream_failure_propagates `{HashOrder} self q w :
  (∀ e w1, _vector_retriever self q w = (Raise e, w1) →
           _retrieve self q w = (Raise e, w1)) ∧
  (∀ V w1 e w2, _vector_retriever self q w = (Return V, w1) →
                _keyword_retriever self q w1 = (Raise e, w2) →
                _retrieve self q w = (Raise e, w2)).
Proof.
  split.
  - intros e w1. apply _retrieve_vector_raises.
  - intros V w1 e w2. apply _retrieve_keyword_raises.
Qed.

(** C5. Two calls whose upstream retrievers return the same two
    sequences return collections with the same id set, in whatever
    worlds the calls start and whatever orders the two set iterations
    take; the collections hold the same items up to order. *)
Theorem retrieve_same_id_set (O1 O2 : HashOrder) self q wa wa1 wa2 wb wb1 wb2 V K :
  _vector_retriever self q wa = (Return V, wa1) →
  _keyword_retriever self q wa1 = (Return K, wa2) →
  _vector_retriever self q wb = (Return V, wb1) →
  _keyword_retriever self q wb1 = (Return K, wb2) →
  ∃ out_a out_b,
    @_retrieve _ _ _ O1 self q wa = (Return out_a, wa2) ∧
    @_retrieve _ _ _ O2 self q wb = (Return out_b, wb2) ∧
    ids out_a = ids out_b ∧ out_a ≡ₚ out_b.
Proof.
  intros HVa HKa HVb HKb.
  exists (@looked_up _ O1 (_mode self) V K), (@looked_up _ O2 (_mode self) V K).
  split; [by apply (_retrieve_run self q wa V wa1 K wa2) |].
  split; [by apply (_retrieve_run self q wb V wb1 K wb2) |].
  split; [by rewrite !ids_looked_up |].
  unfold looked_up. apply omap_Permutation.
  by rewrite (@set_iter_perm O1), (@set_iter_perm O2).
Qed.

(** C6. Every id of the fused output comes from upstream (mode AND: from
    both sequences; mode OR: from at least one), every item of the output
    is an upstream item, and every qualifying id occurs in the output
    exactly once, however often it occurred upstream. *)
Theorem fused_ids_qualify_once `{HashOrder} self q w V w1 K w2 :
  _vector_retriever self q w = (Return V, w1) →
  _keyword_retriever self q w1 = (Return K, w2) →
  ∃ out, _retrieve self q w = (Return out, w2) ∧
         NoDup (nid <$> out) ∧
         (∀ n, n ∈ out → n ∈ V ∨ n ∈ K) ∧
         (_mode self = "AND" →
            (∀ i, i ∈ ids out → i ∈ ids V ∧ i ∈ ids K) ∧
            (∀ i, i ∈ ids V → i ∈ ids K → occurrences i out = 1)) ∧
         (_mode self = "OR" →
            (∀ i, i ∈ ids out → i ∈ ids V ∨ i ∈ ids K) ∧
            (∀ i, i ∈ ids V ∨ i ∈ ids K → occurrences i out = 1)).
Proof.
  intros HV HK. exists (looked_up (_mode self) V K).
  split; [by apply (_retrieve_run self q w V w1 K w2) |].
  split; [rewrite nid_looked_up; apply set_iter_NoDup |].
  split.
  { intros n [_ Hn]%elem_of_looked_up.
    by apply lookup_combined_dict_Some in Hn as [_ ?]. }
  split; intros Hmode; rewrite Hmode.
  - split; intros i.
    + rewrite ids_looked_up, retrieve_ids_AND. by intros ?%elem_of_intersection.
    + intros HiV HiK. rewrite occurrences_looked_up, retrieve_ids_AND.
      rewrite decide_True; [done | by apply elem_of_intersection].
  - split; intros i.
    + rewrite ids_looked_up, retrieve_ids_not_AND by done.
      by intros ?%elem_of_union.
    + intros Hi. rewrite occurrences_looked_up, retrieve_ids_not_AND by done.
      rewrite decide_True; [done | by apply elem_of_union].
Qed.

(** C8. When both upstream retrievers return the empty sequence,
    [_retrieve] returns the empty list, in every mode. *)
Theorem retrieve_empty `{HashOrder} self q w w1 w2 :
  _vector_retriever self q w = (Return [], w1) →
  _keyword_retriever self q w1 = (Return [], w2) →
  _retrieve self q w = (Return [], w2).
Proof.
  intros HV HK. rewrite (_retrieve_run self q w [] w1 [] w2 HV HK).
  assert (Hids : retrieve_ids (_mode self) (@nil (@NodeWithScore Score)) [] = ∅).
  { unfold retrieve_ids, node_ids. simpl. case_bool_decide; set_solver. }
  unfold looked_up. by rewrite Hids, set_iter_empty.
Qed.

(** C10. Every id of the computed id set is a key of the dict built from
    V and then K, in every mode; so each [combined_dict[rid]] returns and
    the list comprehension returns: no [KeyError]. *)
Theorem final_lookup_total `{HashOrder} mode V K :
  retrieve_ids mode V K ⊆ dom (combined_dict V K) ∧
  (∀ rid, rid ∈ retrieve_ids mode V K →
          ∃ n, dict_getitem (combined_dict V K) rid = Return n) ∧
  (∃ out, retrieve_nodes mode V K = Return out).
Proof.
  split; [rewrite dom_combined_dict; apply retrieve_ids_subseteq |].
  split.
  - intros rid [n Hn]%retrieve_ids_in_dict. exists n.
    unfold dict_getitem. by rewrite Hn.
  - exists (looked_up mode V K). apply retrieve_nodes_Return.
Qed.

End Retrieve.

(** ** Construction *)

Section Construction.

Context {W Score QueryBundle : Type}.

Implicit Types (vr kr : @Retriever W Score QueryBundle).

(** C3. A mode other than "AND" and "OR" (such as "XOR") makes the
    constructor raise [ValueError("Invalid mode.")], and no retriever
    results; with "AND" or "OR" the constructor returns a retriever that
    holds the two upstream retrievers and the mode. *)
Theorem init_checks_mode vr kr (mode : string) :
  (mode ∉ ["AND"; "OR"] →
     __init__ vr kr (Some mode) = Raise (ValueError "Invalid mode.")) ∧
  (mode ∈ ["AND"; "OR"] →
     __init__ vr kr (Some mode) = Return (mkCustomRetriever vr kr mode)) ∧
  __init__ vr kr (Some "XOR") = Raise (ValueError "Invalid mode.").
Proof.
  split; [| split].
  - intros Hbad. unfold __init__. simpl. by rewrite bool_decide_eq_true_2.
  - intros Hok. unfold __init__. simpl.
    rewrite bool_decide_eq_false_2; [done | by intros ?].
  - reflexivity.
Qed.

(** C9. A constructor call without a mode yields a retriever in mode
    "OR", whose id set is the union; [create_query_engines] builds its
    fusion retriever that way, so whenever the library constructors
    return, the custom engine's retriever is a fusion retriever in mode
    "OR". *)
Theorem default_mode_is_OR vr kr :
  __init__ vr kr None = Return (mkCustomRetriever vr kr "OR") ∧
  (∀ V K : list (@NodeWithScore Score), retrieve_ids "OR" V K = ids V ∪ ids K) ∧
  (∀ (L : @Library W Score QueryBundle) vector_index keyword_index w w1 w2 w3 rs,
     VectorIndexRetriever vector_index 2 w = (Return vr, w1) →
     KeywordTableSimpleRetriever keyword_index w1 = (Return kr, w2) →
     get_response_synthesizer w2 = (Return rs, w3) →
     create_query_engines vector_index keyword_index w =
       (Return (mkEngine (LibraryRetriever vr) rs,
                mkEngine (LibraryRetriever kr) rs,
                mkEngine (Fusion (mkCustomRetriever vr kr "OR")) rs), w3)).
Proof.
  split; [reflexivity |]. split.
  - intros V K. by apply retrieve_ids_not_AND.
  - intros L vi ki w w1 w2 w3 rs Hvr Hkr Hrs.
    unfold create_query_engines, bind, lift, ret. by rewrite Hvr, Hkr, Hrs.
Qed.

End Construction.

(** ** Loading documents *)

Section Loading.

Context {W Document : Type} `{DR : @DirectoryReader W Document}.

(** An exception that is no [Exception] (an interrupt, an exit request)
    passes through [load_documents] untouched. *)
Lemma load_documents_passes_non_Exception file_path w e w' :
  directory_read file_path w = (Raise e, w') →
  is_Exception e = false →
  load_documents file_path w = (Raise e, w').
Proof.
  intros Hread Hbase. unfold load_documents, try_except_Exception.
  fold (directory_read file_path). by rewrite Hread, Hbase.
Qed.

(** C7, as the code has it.  When the directory read returns,
    [load_documents] returns the same documents.  When it fails with an
    exception that derives from [Exception], [load_documents] raises a
    [RuntimeError] whose message is "Failed to load documents: " followed
    by the text of the original exception, and which carries the original
    exception as its context.  When it fails with an exception that does
    not derive from [Exception], that exception leaves [load_documents]
    as it is.  In every case the read has run once: the world is the one
    that single read left. *)
Theorem load_documents_wraps_failure file_path w :
  (∀ docs w', directory_read file_path w = (Return docs, w') →
              load_documents file_path w = (Return docs, w')) ∧
  (∀ e w', directory_read file_path w = (Raise e, w') →
           is_Exception e = true →
           ∃ e', load_documents file_path w = (Raise e', w') ∧
                 exn_class e' = "RuntimeError" ∧
                 str e' = "Failed to load documents: " +:+ str e ∧
                 __context__ e' = Some e ∧ wraps e' e) ∧
  (∀ e w', directory_read file_path w = (Raise e, w') →
           is_Exception e = false →
           load_documents file_path w = (Raise e, w')).
Proof.
  split; [| split].
  - intros docs w' Hread. unfold load_documents, try_except_Exception.
    fold (directory_read file_path). by rewrite Hread.
  - intros e w' Hread Hexc.
    exists (raised_while_handling e
              (RuntimeError ("Failed to load documents: " +:+ str e))).
    split.
    + unfold load_documents, try_except_Exception.
      fold (directory_read file_path). by rewrite Hread, Hexc.
    + repeat split; try reflexivity. by right.
  - intros e w'. apply load_documents_passes_non_Exception.
Qed.

End Loading.

(** ** The properties at work *)

Section Scenarios.

Import Demo.

(** The scenario of the spec's section 8, evaluated.  The output is in
    the order of the set iteration, not in order of score. *)
Example scenario_OR :
  @_retrieve _ _ _ canonical_order (fusion "OR" V0 K0) "q" [] =
    (Return [item "c" 30; item "a" 90; item "b" 70], W2).
Proof. vm_compute. reflexivity. Qed.

Example scenario_AND :
  @_retrieve _ _ _ canonical_order (fusion "AND" V0 K0) "q" [] =
    (Return [item "b" 70], W2).
Proof. vm_compute. reflexivity. Qed.

Example scenario_OR_reversed :
  @_retrieve _ _ _ reversed_order (fusion "OR" V0 K0) "q" [] =
    (Return [item "b" 70; item "a" 90; item "c" 30], W2).
Proof. vm_compute. reflexivity. Qed.

(** Ids repeated inside a sequence: the last occurrence is kept. *)
Example scenario_repeated_ids :
  @_retrieve _ _ _ canonical_order (fusion "OR" V1 K1) "q" [] =
    (Return [item "c" 30; item "a" 10; item "b" 20], W2).
Proof. vm_compute. reflexivity. Qed.

(** A mode that did not pass the constructor is treated as OR. *)
Example scenario_unchecked_mode :
  @_retrieve _ _ _ canonical_order (fusion "XOR" V0 K0) "q" [] =
    (Return [item "c" 30; item "a" 90; item "b" 70], W2).
Proof. vm_compute. reflexivity. Qed.

Lemma retrieve_id_set_witness :
  _vector_retriever (fusion "AND" V0 K0) "q" [] = (Return V0, ["vector"]) ∧
  _keyword_retriever (fusion "AND" V0 K0) "q" ["vector"] = (Return K0, W2) ∧
  ∃ out, @_retrieve _ _ _ canonical_order (fusion "AND" V0 K0) "q" [] = (Return out, W2) ∧
         (_mode (fusion "AND" V0 K0) = "AND" → ids out = ids V0 ∩ ids K0) ∧
         (_mode (fusion "AND" V0 K0) = "OR" → ids out = ids V0 ∪ ids K0).
Proof.
  split; [reflexivity |]. split; [reflexivity |].
  apply (@retrieve_id_set _ _ _ canonical_order
           (fusion "AND" V0 K0) "q" [] V0 ["vector"] K0 W2); reflexivity.
Defined.

Lemma keyword_item_wins_witness :
  "b" ∈ ids V1 ∧ "b" ∈ ids K1 ∧
  ∃ out k, @_retrieve _ _ _ reversed_order (fusion "OR" V1 K1) "q" [] = (Return out, W2) ∧
           last_with_id "b" K1 = Some k ∧ k ∈ K1 ∧ k ∈ out ∧
           (∀ n, n ∈ out → nid n = "b" → n = k) ∧
           (∀ s, (∀ k', k' ∈ K1 → nid k' = "b" → score k' = s) →
                 ∀ n, n ∈ out → nid n = "b" → score n = s).
Proof.
  assert (HV : "b" ∈ ids V1) by (apply (bool_decide_unpack _); vm_compute; exact I).
  assert (HK : "b" ∈ ids K1) by (apply (bool_decide_unpack _); vm_compute; exact I).
  split; [exact HV |]. split; [exact HK |].
  apply (@keyword_item_wins _ _ _ reversed_order
           (fusion "OR" V1 K1) "q" [] V1 ["vector"] K1 W2 "b");
    [reflexivity | reflexivity | exact HV | exact HK].
Defined.

(** The vector retriever fails with a [ConnectionError]: that very
    exception comes out of [_retrieve]; it is no [RetrievalError] and
    wraps nothing. *)
Lemma upstream_error_comes_out_unwrapped :
  @_retrieve _ _ _ canonical_order vector_down "q" [] = (Raise ConnectionError, ["vector"]) ∧
  ¬ wraps ConnectionError ConnectionError ∧
  ¬ RetrievalError_wrapping ConnectionError ConnectionError.
Proof.
  split; [reflexivity |]. split.
  - intros [Hcause | Hcontext]; discriminate.
  - intros [Hclass _]. discriminate Hclass.
Qed.

(** C4 as stated fails: a failing vector retriever does not make
    [_retrieve] raise a [RetrievalError] that wraps the upstream
    exception. *)
Lemma upstream_error_not_wrapped :
  ¬ (∀ (self : @CustomRetriever World nat string) q w e w1,
       _vector_retriever self q w = (Raise e, w1) →
       ∃ e' w', @_retrieve _ _ _ canonical_order self q w = (Raise e', w') ∧
                RetrievalError_wrapping e' e).
Proof.
  intros Hclaim.
  destruct (Hclaim vector_down "q" [] ConnectionError ["vector"] eq_refl)
    as (e' & w' & Hrun & Hclass & _).
  destruct upstream_error_comes_out_unwrapped as [Hcode _].
  rewrite Hcode in Hrun. injection Hrun as <- _. discriminate Hclass.
Qed.

Lemma upstream_failure_propagates_witness :
  @_retrieve _ _ _ canonical_order vector_down "q" [] = (Raise ConnectionError, ["vector"]) ∧
  @_retrieve _ _ _ canonical_order keyword_down "q" [] = (Raise ConnectionError, W2).
Proof.
  split.
  - apply (proj1 (@upstream_failure_propagates _ _ _ canonical_order vector_down "q" [])).
    reflexivity.
  - apply (proj2 (@upstream_failure_propagates _ _ _ canonical_order keyword_down "q" [])
             V0 ["vector"]); reflexivity.
Defined.

Lemma retrieve_same_id_set_witness :
  ∃ out_a out_b,
    @_retrieve _ _ _ canonical_order (fusion "OR" V1 K1) "q" [] = (Return out_a, W2) ∧
    @_retrieve _ _ _ reversed_order (fusion "OR" V1 K1) "q" ["earlier"] =
      (Return out_b, ["earlier"; "vector"; "keyword"]) ∧
    ids out_a = ids out_b ∧ out_a ≡ₚ out_b.
Proof.
  apply (retrieve_same_id_set canonical_order reversed_order (fusion "OR" V1 K1) "q"
           [] ["vector"] W2
           ["earlier"] ["earlier"; "vector"] ["earlier"; "vector"; "keyword"]
           V1 K1); reflexivity.
Defined.

Lemma fused_ids_qualify_once_witness :
  ∃ out, @_retrieve _ _ _ canonical_order (fusion "OR" V1 K1) "q" [] = (Return out, W2) ∧
         NoDup (nid <$> out) ∧
         (∀ n, n ∈ out → n ∈ V1 ∨ n ∈ K1) ∧
         (_mode (fusion "OR" V1 K1) = "AND" →
            (∀ i, i ∈ ids out → i ∈ ids V1 ∧ i ∈ ids K1) ∧
            (∀ i, i ∈ ids V1 → i ∈ ids K1 → occurrences i out = 1)) ∧
         (_mode (fusion "OR" V1 K1) = "OR" →
            (∀ i, i ∈ ids out → i ∈ ids V1 ∨ i ∈ ids K1) ∧
            (∀ i, i ∈ ids V1 ∨ i ∈ ids K1 → occurrences i out = 1)).
Proof.
  apply (@fused_ids_qualify_once _ _ _ canonical_order
           (fusion "OR" V1 K1) "q" [] V1 ["vector"] K1 W2); reflexivity.
Defined.

Lemma retrieve_empty_witness :
  @_retrieve _ _ _ canonical_order (fusion "AND" [] []) "q" [] = (Return [], W2) ∧
  @_retrieve _ _ _ canonical_order (fusion "OR" [] []) "q" [] = (Return [], W2).
Proof.
  split.
  - apply (@retrieve_empty _ _ _ canonical_order (fusion "AND" [] []) "q" [] ["vector"] W2);
      reflexivity.
  - apply (@retrieve_empty _ _ _ canonical_order (fusion "OR" [] []) "q" [] ["vector"] W2);
      reflexivity.
Defined.

Lemma final_lookup_total_witness :
  ∃ n, dict_getitem (combined_dict V0 K0) "b" = Return n.
Proof.
  apply (proj1 (proj2 (@final_lookup_total nat canonical_order "AND" V0 K0))).
  apply (bool_decide_unpack _). vm_compute. exact I.
Defined.

Lemma init_checks_mode_witness :
  @__init__ World nat string (answering "vector" (Return V0))
      (answering "keyword" (Return K0)) (Some "NOT") =
    Raise (ValueError "Invalid mode.") ∧
  @__init__ World nat string (answering "vector" (Return V0))
      (answering "keyword" (Return K0)) (Some "AND") =
    Return (fusion "AND" V0 K0).
Proof.
  split.
  - apply (proj1 (init_checks_mode (answering "vector" (Return V0))
                    (answering "keyword" (Return K0)) "NOT")).
    apply (bool_decide_unpack _). vm_compute. exact I.
  - apply (proj1 (proj2 (init_checks_mode (answering "vector" (Return V0))
                    (answering "keyword" (Return K0)) "AND"))).
    apply (bool_decide_unpack _). vm_compute. exact I.
Defined.

Lemma default_mode_is_OR_witness :
  ∃ engines,
    @create_query_engines _ _ _ library tt tt [] =
      (Return engines,
       ["VectorIndexRetriever"; "KeywordTableSimpleRetriever"; "get_response_synthesizer"]) ∧
    retriever (snd engines) = Fusion (fusion "OR" V0 K0).
Proof.
  eexists. split.
  - apply (proj2 (proj2 (default_mode_is_OR (answering "vector" (Return V0))
                           (answering "keyword" (Return K0))))
             library tt tt [] ["VectorIndexRetriever"]
             ["VectorIndexRetriever"; "KeywordTableSimpleRetriever"]
             ["VectorIndexRetriever"; "KeywordTableSimpleRetriever";
              "get_response_synthesizer"] tt); reflexivity.
  - reflexivity.
Defined.

Lemma load_documents_wraps_failure_witness :
  @load_documents _ _ (reader_answering (Return ["cv.txt"])) "resume" [] =
    (Return ["cv.txt"], ["SimpleDirectoryReader"; "load_data"]) ∧
  (∃ e', @load_documents _ _ (reader_answering (Raise ConnectionError)) "resume" [] =
           (Raise e', ["SimpleDirectoryReader"; "load_data"]) ∧
         exn_class e' = "RuntimeError" ∧
         str e' = "Failed to load documents: " +:+ str ConnectionError ∧
         __context__ e' = Some ConnectionError ∧ wraps e' ConnectionError) ∧
  @load_documents _ _ (reader_rejecting KeyboardInterrupt) "resume" [] =
    (Raise KeyboardInterrupt, ["SimpleDirectoryReader"]).
Proof.
  split; [| split].
  - apply (proj1 (@load_documents_wraps_failure _ _
                    (reader_answering (Return ["cv.txt"])) "resume" [])).
    reflexivity.
  - apply (proj1 (proj2 (@load_documents_wraps_failure _ _
                    (reader_answering (Raise ConnectionError)) "resume" [])));
      reflexivity.
  - apply (proj2 (proj2 (@load_documents_wraps_failure _ _
                    (reader_rejecting KeyboardInterrupt) "resume" [])));
      reflexivity.
Defined.

(** An interrupt during the read is not wrapped. *)
Example load_documents_interrupted :
  @load_documents _ _ (reader_rejecting KeyboardInterrupt) "resume" [] =
    (Raise KeyboardInterrupt, ["SimpleDirectoryReader"]).
Proof. reflexivity. Qed.

(** The interrupt that comes out has neither cause nor context. *)
Lemma interrupt_wraps_nothing : ¬ wraps KeyboardInterrupt KeyboardInterrupt.
Proof. intros [Hcause | Hcontext]; discriminate. Qed.

(** C7 as stated fails: not every failure of the directory read makes
    [load_documents] raise an error that wraps the original one.  A read
    ended by a [KeyboardInterrupt] ends [load_documents] with that
    [KeyboardInterrupt]. *)
Lemma load_documents_does_not_wrap_every_failure :
  ¬ (∀ (DR : @DirectoryReader World string) file_path w e w',
       directory_read file_path w = (Raise e, w') →
       ∃ e' w'', load_documents file_path w = (Raise e', w'') ∧ wraps e' e).
Proof.
  intros Hclaim.
  destruct (Hclaim (reader_rejecting KeyboardInterrupt) "resume" []
              KeyboardInterrupt ["SimpleDirectoryReader"] eq_refl)
    as (e' & w'' & Hrun & Hwraps).
  rewrite load_documents_interrupted in Hrun. injection Hrun as <- _.
  by apply interrupt_wraps_nothing.
Qed.

End Scenarios.

(** ** More on the fusion retriever *)

Section RetrieveMore.

Context {W Score QueryBundle : Type}.

Local Open Scope nat_scope.

Implicit Types (n k : @NodeWithScore Score) (V K out : list (@NodeWithScore Score)).
Implicit Types (self : @CustomRetriever W Score QueryBundle) (q : QueryBundle) (w : W).
Implicit Types (vr kr : @Retriever W Score QueryBundle).
Implicit Types (i rid mode : string).

Lemma size_ids_le V : size (ids V) ≤ length V.
Proof.
  unfold ids. induction V as [|n V IH].
  - rewrite fmap_nil, list_to_set_nil. by rewrite size_empty.
  - rewrite fmap_cons, list_to_set_cons, length_cons.
    rewrite size_union_alt, size_singleton.
    assert (size (list_to_set (nid <$> V) ∖ {[nid n]} : gset string)
            ≤ size (list_to_set (nid <$> V) : gset string)) as Hle.
    { apply subseteq_size. set_solver. }
    lia.
Qed.

Lemma length_looked_up `{HashOrder} mode V K :
  length (looked_up mode V K) = size (retrieve_ids mode V K).
Proof.
  rewrite <- (length_fmap nid), nid_looked_up.
  by rewrite set_iter_perm.
Qed.

Lemma retrieve_ids_comm mode V K : retrieve_ids mode V K = retrieve_ids mode K V.
Proof.
  unfold retrieve_ids. case_bool_decide.
  - apply (comm_L (∩)).
  - apply (comm_L (∪)).
Qed.

(** X1. [_retrieve] raises nothing of its own: an exception that leaves it
    was raised by the vector retriever, or by the keyword retriever after
    the vector retriever had returned. *)
Theorem retrieve_raises_only_upstream `{HashOrder} self q w e w' :
  _retrieve self q w = (Raise e, w') →
  _vector_retriever self q w = (Raise e, w') ∨
  ∃ V w1, _vector_retriever self q w = (Return V, w1) ∧
          _keyword_retriever self q w1 = (Raise e, w').
Proof.
  intros Hrun.
  destruct (_vector_retriever self q w) as [[V | ev] w1] eqn:HV.
  - destruct (_keyword_retriever self q w1) as [[K | ek] w2] eqn:HK.
    + rewrite (_retrieve_run self q w V w1 K w2 HV HK) in Hrun. discriminate Hrun.
    + rewrite (_retrieve_keyword_raises self q w V w1 ek w2 HV HK) in Hrun.
      injection Hrun as -> ->. right. by exists V, w1.
  - rewrite (_retrieve_vector_raises self q w ev w1 HV) in Hrun.
    injection Hrun as -> ->. by left.
Qed.

(** X2. The mode test is [== "AND"] and nothing else: a retriever whose
    mode is any other string takes the union. *)
Theorem retrieve_other_mode_is_union `{HashOrder} self q w V w1 K w2 :
  _vector_retriever self q w = (Return V, w1) →
  _keyword_retriever self q w1 = (Return K, w2) →
  _mode self ≠ "AND" →
  ∃ out, _retrieve self q w = (Return out, w2) ∧ ids out = ids V ∪ ids K.
Proof.
  intros HV HK Hmode. exists (looked_up (_mode self) V K).
  split; [by apply (_retrieve_run self q w V w1 K w2) |].
  rewrite ids_looked_up. by apply retrieve_ids_not_AND.
Qed.

(** X3. The ids of the output, read in order, are the id set in its
    iteration order: the output is ranked neither by score nor by upstream
    position. *)
Theorem retrieve_follows_set_order `{HashOrder} self q w V w1 K w2 :
  _vector_retriever self q w = (Return V, w1) →
  _keyword_retriever self q w1 = (Return K, w2) →
  ∃ out, _retrieve self q w = (Return out, w2) ∧
         (_mode self = "AND" → nid <$> out = set_iter (ids V ∩ ids K)) ∧
         (_mode self ≠ "AND" → nid <$> out = set_iter (ids V ∪ ids K)).
Proof.
  intros HV HK. exists (looked_up (_mode self) V K).
  split; [by apply (_retrieve_run self q w V w1 K w2) |].
  rewrite nid_looked_up. split; intros Hmode.
  - by rewrite Hmode, retrieve_ids_AND.
  - by rewrite retrieve_ids_not_AND.
Qed.

(** X4. The output is never longer than the two upstream sequences
    together, and in mode AND never longer than either of them. *)
Theorem retrieve_length_bounds `{HashOrder} self q w V w1 K w2 :
  _vector_retriever self q w = (Return V, w1) →
  _keyword_retriever self q w1 = (Return K, w2) →
  ∃ out, _retrieve self q w = (Return out, w2) ∧
         length out ≤ length V + length K ∧
         (_mode self = "AND" → length out ≤ length V ∧ length out ≤ length K).
Proof.
  intros HV HK. exists (looked_up (_mode self) V K).
  split; [by apply (_retrieve_run self q w V w1 K w2) |].
  rewrite length_looked_up.
  pose proof (size_ids_le V) as HsV. pose proof (size_ids_le K) as HsK.
  split.
  - pose proof (subseteq_size _ _ (retrieve_ids_subseteq (_mode self) V K)) as Hle.
    pose proof (size_union_alt (ids V) (ids K)) as Hun.
    assert (size (ids K ∖ ids V) ≤ size (ids K)) by (apply subseteq_size; set_solver).
    lia.
  - intros Hmode. rewrite Hmode, retrieve_ids_AND.
    assert (size (ids V ∩ ids K) ≤ size (ids V)) by (apply subseteq_size; set_solver).
    assert (size (ids V ∩ ids K) ≤ size (ids K)) by (apply subseteq_size; set_solver).
    lia.
Qed.

(** X5. Which item stands for an id: every returned item is the last item
    of K with its id when K has that id, and otherwise the last item of V
    with its id. *)
Theorem returned_item_is_last_writer `{HashOrder} self q w V w1 K w2 :
  _vector_retriever self q w = (Return V, w1) →
  _keyword_retriever self q w1 = (Return K, w2) →
  ∃ out, _retrieve self q w = (Return out, w2) ∧
         ∀ n, n ∈ out →
              match last_with_id (nid n) K with
              | Some k => n = k
              | None => last_with_id (nid n) V = Some n
              end.
Proof.
  intros HV HK. exists (looked_up (_mode self) V K).
  split; [by apply (_retrieve_run self q w V w1 K w2) |].
  intros n [_ Hn]%elem_of_looked_up. rewrite lookup_combined_dict in Hn.
  destruct (last_with_id (nid n) K) as [k|]; [congruence | done].
Qed.

(** X6. Over the same two upstream retrievers, every item the AND
    retriever returns is also returned by the OR retriever, whatever
    orders the two set iterations take. *)
Theorem AND_result_within_OR_result (O1 O2 : HashOrder) vr kr q w V w1 K w2 :
  vr q w = (Return V, w1) →
  kr q w1 = (Return K, w2) →
  ∃ out_and out_or,
    @_retrieve _ _ _ O1 (mkCustomRetriever vr kr "AND") q w = (Return out_and, w2) ∧
    @_retrieve _ _ _ O2 (mkCustomRetriever vr kr "OR") q w = (Return out_or, w2) ∧
    ∀ n, n ∈ out_and → n ∈ out_or.
Proof.
  intros HV HK. exists (@looked_up _ O1 "AND" V K), (@looked_up _ O2 "OR" V K).
  split; [by apply (_retrieve_run (mkCustomRetriever vr kr "AND") q w V w1 K w2) |].
  split; [by apply (_retrieve_run (mkCustomRetriever vr kr "OR") q w V w1 K w2) |].
  intros n [Hin Hn]%elem_of_looked_up. apply elem_of_looked_up. split; [| done].
  rewrite retrieve_ids_AND in Hin. rewrite retrieve_ids_not_AND by done. set_solver.
Qed.

(** X7. Exchanging the two upstream retrievers does not change which
    ids are returned: the two outputs have the same id set and the same
    ids up to order, whatever orders the two set iterations take.  The
    order of the ids, and the item standing for a shared id, can change. *)
Theorem swapping_retrievers_keeps_ids (O1 O2 : HashOrder)
    vr kr mode q w V w1 K w2 w1' w2' :
  vr q w = (Return V, w1) →
  kr q w1 = (Return K, w2) →
  kr q w = (Return K, w1') →
  vr q w1' = (Return V, w2') →
  ∃ out out',
    @_retrieve _ _ _ O1 (mkCustomRetriever vr kr mode) q w = (Return out, w2) ∧
    @_retrieve _ _ _ O2 (mkCustomRetriever kr vr mode) q w = (Return out', w2') ∧
    ids out = ids out' ∧ nid <$> out ≡ₚ nid <$> out'.
Proof.
  intros HV HK HK' HV'.
  exists (@looked_up _ O1 mode V K), (@looked_up _ O2 mode K V).
  split; [by apply (_retrieve_run (mkCustomRetriever vr kr mode) q w V w1 K w2) |].
  split; [by apply (_retrieve_run (mkCustomRetriever kr vr mode) q w K w1' V w2') |].
  split.
  - by rewrite !ids_looked_up, retrieve_ids_comm.
  - rewrite !nid_looked_up, (retrieve_ids_comm mode K V).
    by rewrite (@set_iter_perm O1), (@set_iter_perm O2).
Qed.

(** X8. In mode AND an empty upstream sequence on either side empties the
    output. *)
Theorem intersection_with_empty_side `{HashOrder} self q w V w1 K w2 :
  _vector_retriever self q w = (Return V, w1) →
  _keyword_retriever self q w1 = (Return K, w2) →
  _mode self = "AND" →
  V = [] ∨ K = [] →
  _retrieve self q w = (Return [], w2).
Proof.
  intros HV HK Hmode Hempty.
  rewrite (_retrieve_run self q w V w1 K w2 HV HK).
  assert (Hids : retrieve_ids (_mode self) V K = ∅).
  { rewrite Hmode, retrieve_ids_AND. destruct Hempty as [-> | ->]; set_solver. }
  unfold looked_up. by rewrite Hids, set_iter_empty.
Qed.

(** X9. Scores play no part in the choice of the ids: two calls in the
    same mode whose upstream sequences carry the same id sets return the
    same id set, and the same ids up to order, whatever the scores, the
    texts, the upstream positions and the orders the two set iterations
    take. *)
Theorem output_ids_ignore_scores (O1 O2 : HashOrder)
    self self' q w w1 w2 w' w1' w2' V K V' K' :
  _vector_retriever self q w = (Return V, w1) →
  _keyword_retriever self q w1 = (Return K, w2) →
  _vector_retriever self' q w' = (Return V', w1') →
  _keyword_retriever self' q w1' = (Return K', w2') →
  _mode self = _mode self' →
  ids V = ids V' → ids K = ids K' →
  ∃ out out',
    @_retrieve _ _ _ O1 self q w = (Return out, w2) ∧
    @_retrieve _ _ _ O2 self' q w' = (Return out', w2') ∧
    ids out = ids out' ∧ nid <$> out ≡ₚ nid <$> out'.
Proof.
  intros HV HK HV' HK' Hmode HidV HidK.
  exists (@looked_up _ O1 (_mode self) V K), (@looked_up _ O2 (_mode self') V' K').
  split; [by apply (_retrieve_run self q w V w1 K w2) |].
  split; [by apply (_retrieve_run self' q w' V' w1' K' w2') |].
  assert (Hids : retrieve_ids (_mode self) V K = retrieve_ids (_mode self') V' K').
  { rewrite <- Hmode. unfold retrieve_ids. by rewrite !node_ids_ids, HidV, HidK. }
  split.
  - by rewrite !ids_looked_up.
  - rewrite !nid_looked_up, Hids.
    by rewrite (@set_iter_perm O1), (@set_iter_perm O2).
Qed.

(** X10. Whatever the constructor returns has mode "AND" or "OR", the
    mode asked for ("OR" when none was given), and holds the two
    retrievers it was given. *)
Theorem init_Return_inv vr kr (mode : option string) (c : @CustomRetriever W Score QueryBundle) :
  __init__ vr kr mode = Return c →
  _mode c ∈ ["AND"; "OR"] ∧ _mode c = default "OR" mode ∧
  _vector_retriever c = vr ∧ _keyword_retriever c = kr.
Proof.
  unfold __init__. case_bool_decide as Hmode; [discriminate |].
  intros [= <-]. split; [exact Hmode | done].
Qed.

End RetrieveMore.

(** ** More on loading and wiring *)

Section LoadingMore.

Context {W Document : Type} `{DR : @DirectoryReader W Document}.

(** X11. [load_documents] returns documents only when the directory read
    returned them: the same documents, the same world.  A failed read is
    never turned into a result. *)
Theorem load_documents_returns_only_read file_path w docs w' :
  load_documents file_path w = (Return docs, w') →
  directory_read file_path w = (Return docs, w').
Proof.
  unfold load_documents, try_except_Exception. fold (directory_read file_path).
  destruct (directory_read file_path w) as [[docs1 | e] w1]; [by intros [= <- <-] |].
  destruct (is_Exception e); discriminate.
Qed.

(** X12. [load_documents] fails only when the directory read failed, and
    it adds no call of its own.  What it raises is then a [RuntimeError]
    with the message "Failed to load documents: " followed by the text of
    the read's exception, which it carries as context; or, when the read's
    exception is no [Exception], that exception itself. *)
Theorem load_documents_raises_only file_path w e' w' :
  load_documents file_path w = (Raise e', w') →
  ∃ e, directory_read file_path w = (Raise e, w') ∧
       ((is_Exception e = true ∧ exn_class e' = "RuntimeError" ∧
         str e' = "Failed to load documents: " +:+ str e ∧
         __context__ e' = Some e)
        ∨ (is_Exception e = false ∧ e' = e)).
Proof.
  unfold load_documents, try_except_Exception. fold (directory_read file_path).
  destruct (directory_read file_path w) as [[docs | e] w1]; [discriminate |].
  destruct (is_Exception e) eqn:Hexc.
  - intros [= <- <-]. exists e. split; [done |]. left. by rewrite Hexc.
  - intros [= <- <-]. exists e. split; [done |]. right. by rewrite Hexc.
Qed.

End LoadingMore.

Section Wiring.

Context {W Score Document QueryBundle : Type}.
Context `{DR : @DirectoryReader W Document} `{L : @Library W Score QueryBundle}.
Context `{S : @Services W Score Document QueryBundle L}.

(** X14. When the directory read fails, [main] ends there: it raises what
    [load_documents] raises and the world is the one the read left, so no
    node is parsed, no index built and no query made. *)
Theorem main_stops_when_loading_fails w e w' :
  directory_read "resume" w = (Raise e, w') →
  ∃ e', main w = (Raise e', w') ∧
        (is_Exception e = true →
           exn_class e' = "RuntimeError" ∧
           str e' = "Failed to load documents: " +:+ str e ∧
           __context__ e' = Some e) ∧
        (is_Exception e = false → e' = e).
Proof.
  intros Hread. unfold main, bind at 1.
  unfold load_documents, try_except_Exception. fold (directory_read "resume").
  rewrite Hread. destruct (is_Exception e) eqn:Hexc.
  - eexists. split; [reflexivity |]. split; [done | discriminate].
  - exists e. split; [reflexivity |]. split; [discriminate | done].
Qed.

(** X15. When loading, parsing, storing and the constructors all return,
    [main] comes down to one query and one print: the example question is
    put to the engine whose retriever is the fusion retriever in mode "OR"
    over the vector retriever (top 2) and the keyword retriever, both built
    on indices over the parsed nodes and one storage context. *)
Theorem main_queries_fusion_engine w docs w1 nodes w2 sc w3 w4 vi w5 ki w6 vr w7 kr w8 rs w9 :
  directory_read "resume" w = (Return docs, w1) →
  get_nodes_from_documents docs w1 = (Return nodes, w2) →
  from_defaults w2 = (Return sc, w3) →
  add_documents sc nodes w3 = (Return (), w4) →
  VectorStoreIndex nodes sc w4 = (Return vi, w5) →
  SimpleKeywordTableIndex nodes sc w5 = (Return ki, w6) →
  VectorIndexRetriever vi 2 w6 = (Return vr, w7) →
  KeywordTableSimpleRetriever ki w7 = (Return kr, w8) →
  get_response_synthesizer w8 = (Return rs, w9) →
  main w =
    (do response ← query (mkEngine (Fusion (mkCustomRetriever vr kr "OR")) rs)
                         example_question;
     print response)%py w9.
Proof.
  intros Hread Hnodes Hsc Hadd Hvi Hki Hvr Hkr Hrs.
  unfold main, bind at 1.
  unfold load_documents, try_except_Exception. fold (directory_read "resume").
  rewrite Hread. unfold bind at 1. rewrite Hnodes.
  unfold bind at 1. unfold initialize_storage_context, bind at 1 2.
  rewrite Hsc, Hadd. unfold ret at 1.
  unfold bind at 1. unfold create_indices, bind at 1 2. rewrite Hvi, Hki.
  unfold ret at 1. simpl fst. simpl snd.
  unfold bind at 1. unfold create_query_engines, bind at 1 2 3 4, lift, ret.
  rewrite Hvr, Hkr. simpl. rewrite Hrs. reflexivity.
Qed.

End Wiring.

(** ** These properties at work *)

Section ScenariosMore.

Import Demo.

(** The whole script on logging services: every call in source order. *)
Example main_runs :
  @main _ _ _ _ (reader_answering (Return ["cv.txt"])) library services [] =
    (Return (),
     ["SimpleDirectoryReader"; "load_data"; "get_nodes_from_documents";
      "from_defaults"; "add_documents"; "VectorStoreIndex"; "SimpleKeywordTableIndex";
      "VectorIndexRetriever"; "KeywordTableSimpleRetriever"; "get_response_synthesizer";
      "query"; "print"]).
Proof. vm_compute. reflexivity. Qed.

(** Exchanging the retrievers changes the item for the shared id "b". *)
Example swapped_scores_differ :
  @_retrieve _ _ _ canonical_order (fusion "AND" V0 K0) "q" [] = (Return [item "b" 70], W2) ∧
  @_retrieve _ _ _ canonical_order (fusion "AND" K0 V0) "q" [] = (Return [item "b" 50], W2).
Proof. split; vm_compute; reflexivity. Qed.

Lemma retrieve_raises_only_upstream_witness :
  _vector_retriever keyword_down "q" [] = (Raise ConnectionError, W2) ∨
  ∃ V w1, _vector_retriever keyword_down "q" [] = (Return V, w1) ∧
          _keyword_retriever keyword_down "q" w1 = (Raise ConnectionError, W2).
Proof.
  apply (@retrieve_raises_only_upstream _ _ _ canonical_order keyword_down "q" []).
  reflexivity.
Defined.

Lemma retrieve_other_mode_is_union_witness :
  ∃ out, @_retrieve _ _ _ canonical_order (fusion "and" V0 K0) "q" [] = (Return out, W2) ∧
         ids out = ids V0 ∪ ids K0.
Proof.
  apply (@retrieve_other_mode_is_union _ _ _ canonical_order
           (fusion "and" V0 K0) "q" [] V0 ["vector"] K0 W2);
    [reflexivity | reflexivity | discriminate].
Defined.

Lemma retrieve_follows_set_order_witness :
  ∃ out, @_retrieve _ _ _ reversed_order (fusion "OR" V1 K1) "q" [] = (Return out, W2) ∧
         (_mode (fusion "OR" V1 K1) = "AND" →
            nid <$> out = @set_iter reversed_order (ids V1 ∩ ids K1)) ∧
         (_mode (fusion "OR" V1 K1) ≠ "AND" →
            nid <$> out = @set_iter reversed_order (ids V1 ∪ ids K1)).
Proof.
  apply (@retrieve_follows_set_order _ _ _ reversed_order
           (fusion "OR" V1 K1) "q" [] V1 ["vector"] K1 W2); reflexivity.
Defined.

Lemma retrieve_length_bounds_witness :
  ∃ out, @_retrieve _ _ _ canonical_order (fusion "AND" V1 K1) "q" [] = (Return out, W2) ∧
         (length out ≤ length V1 + length K1)%nat ∧
         (_mode (fusion "AND" V1 K1) = "AND" →
            (length out ≤ length V1)%nat ∧ (length out ≤ length K1)%nat).
Proof.
  apply (@retrieve_length_bounds _ _ _ canonical_order
           (fusion "AND" V1 K1) "q" [] V1 ["vector"] K1 W2); reflexivity.
Defined.

Lemma returned_item_is_last_writer_witness :
  ∃ out, @_retrieve _ _ _ canonical_order (fusion "OR" V1 K1) "q" [] = (Return out, W2) ∧
         ∀ n, n ∈ out →
              match last_with_id (nid n) K1 with
              | Some k => n = k
              | None => last_with_id (nid n) V1 = Some n
              end.
Proof.
  apply (@returned_item_is_last_writer _ _ _ canonical_order
           (fusion "OR" V1 K1) "q" [] V1 ["vector"] K1 W2); reflexivity.
Defined.

Lemma AND_result_within_OR_result_witness :
  ∃ out_and out_or,
    @_retrieve _ _ _ reversed_order (fusion "AND" V1 K1) "q" [] = (Return out_and, W2) ∧
    @_retrieve _ _ _ canonical_order (fusion "OR" V1 K1) "q" [] = (Return out_or, W2) ∧
    ∀ n, n ∈ out_and → n ∈ out_or.
Proof.
  apply (@AND_result_within_OR_result _ _ _ reversed_order canonical_order
           (answering "vector" (Return V1)) (answering "keyword" (Return K1))
           "q" [] V1 ["vector"] K1 W2); reflexivity.
Defined.

Lemma swapping_retrievers_keeps_ids_witness :
  ∃ out out',
    @_retrieve _ _ _ reversed_order
      (mkCustomRetriever (answering "vector" (Return V0))
                         (answering "keyword" (Return K0)) "OR") "q" [] =
      (Return out, W2) ∧
    @_retrieve _ _ _ canonical_order
      (mkCustomRetriever (answering "keyword" (Return K0))
                         (answering "vector" (Return V0)) "OR") "q" [] =
      (Return out', ["keyword"; "vector"]) ∧
    ids out = ids out' ∧ nid <$> out ≡ₚ nid <$> out'.
Proof.
  apply (@swapping_retrievers_keeps_ids _ _ _ reversed_order canonical_order
           (answering "vector" (Return V0)) (answering "keyword" (Return K0))
           "OR" "q" [] V0 ["vector"] K0 W2 ["keyword"] ["keyword"; "vector"]);
    reflexivity.
Defined.

Lemma intersection_with_empty_side_witness :
  @_retrieve _ _ _ canonical_order (fusion "AND" V0 []) "q" [] = (Return [], W2).
Proof.
  apply (@intersection_with_empty_side _ _ _ canonical_order
           (fusion "AND" V0 []) "q" [] V0 ["vector"] [] W2);
    [reflexivity | reflexivity | reflexivity | by right].
Defined.

Lemma output_ids_ignore_scores_witness :
  ∃ out out',
    @_retrieve _ _ _ canonical_order (fusion "OR" V0 K0) "q" [] = (Return out, W2) ∧
    @_retrieve _ _ _ reversed_order (fusion "OR" V0' K0) "q" [] = (Return out', W2) ∧
    ids out = ids out' ∧ nid <$> out ≡ₚ nid <$> out'.
Proof.
  apply (@output_ids_ignore_scores _ _ _ canonical_order reversed_order
           (fusion "OR" V0 K0) (fusion "OR" V0' K0) "q"
           [] ["vector"] W2 [] ["vector"] W2 V0 K0 V0' K0);
    reflexivity.
Defined.

Lemma init_Return_inv_witness :
  _mode (fusion "OR" V0 K0) ∈ ["AND"; "OR"] ∧
  _mode (fusion "OR" V0 K0) = default "OR" None ∧
  _vector_retriever (fusion "OR" V0 K0) = answering "vector" (Return V0) ∧
  _keyword_retriever (fusion "OR" V0 K0) = answering "keyword" (Return K0).
Proof.
  apply (init_Return_inv (answering "vector" (Return V0))
           (answering "keyword" (Return K0)) None (fusion "OR" V0 K0)).
  reflexivity.
Defined.

Lemma load_documents_returns_only_read_witness :
  @directory_read _ _ (reader_answering (Return ["cv.txt"])) "resume" [] =
    (Return ["cv.txt"], ["SimpleDirectoryReader"; "load_data"]).
Proof.
  apply (@load_documents_returns_only_read _ _ (reader_answering (Return ["cv.txt"]))).
  reflexivity.
Defined.

Lemma load_documents_raises_only_witness :
  ∃ e, @directory_read _ _ (reader_rejecting KeyboardInterrupt) "resume" [] =
         (Raise e, ["SimpleDirectoryReader"]) ∧
       ((is_Exception e = true ∧ exn_class KeyboardInterrupt = "RuntimeError" ∧
         str KeyboardInterrupt = "Failed to load documents: " +:+ str e ∧
         __context__ KeyboardInterrupt = Some e)
        ∨ (is_Exception e = false ∧ KeyboardInterrupt = e)).
Proof.
  apply (@load_documents_raises_only _ _ (reader_rejecting KeyboardInterrupt) "resume" []).
  reflexivity.
Defined.

Lemma main_stops_when_loading_fails_witness :
  ∃ e', @main _ _ _ _ (reader_answering (Raise ConnectionError)) library services [] =
          (Raise e', ["SimpleDirectoryReader"; "load_data"]) ∧
        (is_Exception ConnectionError = true →
           exn_class e' = "RuntimeError" ∧
           str e' = "Failed to load documents: " +:+ str ConnectionError ∧
           __context__ e' = Some ConnectionError) ∧
        (is_Exception ConnectionError = false → e' = ConnectionError).
Proof.
  apply (@main_stops_when_loading_fails _ _ _ _
           (reader_answering (Raise ConnectionError)) library services []).
  reflexivity.
Defined.

Lemma main_queries_fusion_engine_witness :
  @main _ _ _ _ (reader_answering (Return ["cv.txt"])) library services [] =
    bind (@query _ _ _ _ library services
            (mkEngine (Fusion (fusion "OR" V0 K0)) tt) example_question)
         (@print _ _ _ _ library services)
      ["SimpleDirectoryReader"; "load_data"; "get_nodes_from_documents";
       "from_defaults"; "add_documents"; "VectorStoreIndex"; "SimpleKeywordTableIndex";
       "VectorIndexRetriever"; "KeywordTableSimpleRetriever"; "get_response_synthesizer"].
Proof.
  apply (@main_queries_fusion_engine _ _ _ _
           (reader_answering (Return ["cv.txt"])) library services []
           ["cv.txt"] ["SimpleDirectoryReader"; "load_data"]
           ["cv.txt"] ["SimpleDirectoryReader"; "load_data"; "get_nodes_from_documents"]
           tt
           ["SimpleDirectoryReader"; "load_data"; "get_nodes_from_documents"; "from_defaults"]
           ["SimpleDirectoryReader"; "load_data"; "get_nodes_from_documents"; "from_defaults";
            "add_documents"]
           tt
           ["SimpleDirectoryReader"; "load_data"; "get_nodes_from_documents"; "from_defaults";
            "add_documents"; "VectorStoreIndex"]
           tt
           ["SimpleDirectoryReader"; "load_data"; "get_nodes_from_documents"; "from_defaults";
            "add_documents"; "VectorStoreIndex"; "SimpleKeywordTableIndex"]
           (answering "vector" (Return V0))
           ["SimpleDirectoryReader"; "load_data"; "get_nodes_from_documents"; "from_defaults";
            "add_documents"; "VectorStoreIndex"; "SimpleKeywordTableIndex";
            "VectorIndexRetriever"]
           (answering "keyword" (Return K0))
           ["SimpleDirectoryReader"; "load_data"; "get_nodes_from_documents"; "from_defaults";
            "add_documents"; "VectorStoreIndex"; "SimpleKeywordTableIndex";
            "VectorIndexRetriever"; "KeywordTableSimpleRetriever"]
           tt
           ["SimpleDirectoryReader"; "load_data"; "get_nodes_from_documents"; "from_defaults";
            "add_documents"; "VectorStoreIndex"; "SimpleKeywordTableIndex";
            "VectorIndexRetriever"; "KeywordTableSimpleRetriever";
            "get_response_synthesizer"]); reflexivity.
Defined.

End ScenariosMore.

(** ** The text of a [KeyError] *)

Example repr_plain : repr "node-1" = "'node-1'".
Proof. reflexivity. Qed.

Example repr_single_quote :
  repr "it's" = String double_quote ("it's" +:+ String double_quote EmptyString).
Proof. reflexivity. Qed.

Example repr_newline :
  repr (String "010"%char "a") = String single_quote (String backslash "na'").
Proof. reflexivity. Qed.

Example repr_control :
  repr (String "031"%char EmptyString) = String single_quote (String backslash "x1f'").
Proof. reflexivity. Qed.

Example str_KeyError : str (KeyError "b") = "'b'".
Proof. reflexivity. Qed.
